(** * Supermarket Sales API: a shallow embedding of [app/main.py] and
    [app/models.py], and the properties of its catalog, ledger and daily
    aggregator.

    Layout of the development:
    - [Py]: the Python values the handlers compute with (binary64 floats,
      [float * int], the builtin [sum], naive datetimes, the clock,
      exceptions);
    - [Product], [Sale]: the two mapped classes of [models.py];
    - [Store]: the two tables and the queries the handlers issue;
    - [ProductIn], [SaleIn], [DailyReport]: the request and response models
      of [main.py], and the handlers;
    - [handle]: one request against the application, and [reachable];
    - the statements of the specification, a worked scenario, the proofs.

    The relational store is modelled as the schema of [models.py] asks for
    it: two tables whose rows are kept in insertion order, an integer
    primary key that the store assigns on insert, column values that are
    read back as they were written.  The width of a backend's integer
    column, the transport encoding of a response and the request metrics
    of the middleware are outside this model. *)

From Stdlib Require Import ZArith List String Bool Lia.
From Stdlib Require Import Permutation Sorted.
From Stdlib Require Import Floats.PrimFloat Floats.SpecFloat Floats.FloatOps.
Import ListNotations.

Local Open Scope Z_scope.

(* ================================================================== *)
(** ** Python values *)

Module Py.

(** [float(n)] for a Python [int]: the nearest binary64, ties to even.
    [None] stands for [OverflowError: int too large to convert to float],
    which CPython raises where the rounded magnitude leaves the finite
    range. *)
Definition float_of_int (n : Z) : option float :=
  match binary_normalize 53 1024 n 0 false with
  | S754_infinity _ => None
  | sf => Some (SF2Prim sf)
  end.

(** [x * n] with [x : float] and [n : int]: [float.__mul__] converts the
    integer operand first, then multiplies in binary64. *)
Definition float_mul_int (x : float) (n : Z) : option float :=
  match float_of_int n with
  | Some y => Some (PrimFloat.mul x y)
  | None => None
  end.

(** The builtin [sum] over floats: the items are added left to right onto
    the start value [0], in binary64 (CPython from 3.12 on carries a
    compensation term through the same pass).  The integer start is
    converted on the first addition, and a result left at the integer [0]
    is coerced by the [float] field that receives it. *)
Definition sum_float (xs : list float) : float :=
  fold_left PrimFloat.add xs PrimFloat.zero.

(** The builtin [sum] over integers, which are unbounded. *)
Definition sum_int (xs : list Z) : Z :=
  fold_left Z.add xs 0.

(** *** Naive dates and datetimes

    A [date] is its day number, a [time] the microsecond of the day, and a
    naive [datetime] the microsecond count of its date and time together,
    so that the order of datetimes is the order of [Z]. *)
Definition date := Z.
Definition time := Z.
Definition datetime := Z.

Definition us_per_day : Z := 86400000000.

Definition mk_time (hour minute second microsecond : Z) : time :=
  ((hour * 60 + minute) * 60 + second) * 1000000 + microsecond.

(** [datetime.min.time()] and [datetime.max.time()]. *)
Definition time_min : time := mk_time 0 0 0 0.
Definition time_max : time := mk_time 23 59 59 999999.

(** [datetime.combine(d, t)] and [dt.date()]. *)
Definition combine (d : date) (t : time) : datetime := d * us_per_day + t.
Definition date_of (dt : datetime) : date := dt / us_per_day.

(** One reading of the system clock: the instant in microseconds since
    the epoch, and the offset of the server's local zone from UTC at that
    instant. *)
Record clock := mk_clock { instant : Z; utc_offset : Z }.

(** [datetime.utcnow()]: the naive datetime of the instant in UTC. *)
Definition utcnow (c : clock) : datetime := instant c.

(** [date.today()]: the calendar date of the instant in local time. *)
Definition today (c : clock) : date := date_of (instant c + utc_offset c).

(** What a request can be answered with instead of a value. *)
Inductive exn : Type :=
| HTTPException (status_code : Z) (detail : string)
| OverflowError (msg : string)
| RequestValidationError.

Inductive result (A : Type) : Type :=
| Ok (a : A)
| Raise (e : exn).
Arguments Ok {A} a.
Arguments Raise {A} e.

End Py.
Import Py.

(* ================================================================== *)
(** ** models.py *)

Module Product.
Record t := mk {
  id : Z;
  name : string;
  price : float;
  created_at : datetime
}.
End Product.

Module Sale.
Record t := mk {
  id : Z;
  product_id : Z;
  quantity : Z;
  total : float;
  created_at : datetime
}.
End Sale.

(* ================================================================== *)
(** ** The store behind a [Session] *)

(** [ORDER BY key]: a stable insertion sort on an integer key. *)
Section OrderBy.
Context {A : Type}.
Variable key : A -> Z.

Fixpoint insert_by (a : A) (l : list A) : list A :=
  match l with
  | [] => [a]
  | b :: l' => if key a <=? key b then a :: b :: l' else b :: insert_by a l'
  end.

Fixpoint order_by (l : list A) : list A :=
  match l with
  | [] => []
  | a :: l' => insert_by a (order_by l')
  end.

(** The order [order_by] sorts into. *)
Definition key_le (x y : A) : Prop := key x <= key y.

End OrderBy.

(** [column.desc()]. *)
Definition desc {A : Type} (key : A -> Z) : A -> Z := fun a => - key a.

Module Store.

Record t := mk {
  products : list Product.t;
  sales : list Sale.t
}.

Definition empty : t := mk [] [].

(** The integer primary key the store gives a new row: one more than the
    largest key of the table, [1] in an empty table. *)
Definition next_id (ids : list Z) : Z := 1 + fold_right Z.max 0 ids.

(** [query(Product).filter(Product.name == n).first()]. *)
Definition first_product_named (n : string) (db : t) : option Product.t :=
  find (fun p => String.eqb (Product.name p) n) (products db).

(** [db.get(Product, pk)]. *)
Definition get_product (pk : Z) (db : t) : option Product.t :=
  find (fun p => Product.id p =? pk) (products db).

(** [db.add(p); db.commit(); db.refresh(p)] for a [Product] built from a
    name and a price: the store assigns [id], the column default assigns
    [created_at], and the refreshed row is returned. *)
Definition add_product (n : string) (pr : float) (clk : clock) (db : t)
  : Product.t * t :=
  let p := Product.mk (next_id (map Product.id (products db))) n pr (utcnow clk) in
  (p, mk (products db ++ [p]) (sales db)).

(** The same for a [Sale] built from a product id, a quantity and a total. *)
Definition add_sale (pid qty : Z) (tot : float) (clk : clock) (db : t)
  : Sale.t * t :=
  let s := Sale.mk (next_id (map Sale.id (sales db))) pid qty tot (utcnow clk) in
  (s, mk (products db) (sales db ++ [s])).

End Store.

(* ================================================================== *)
(** ** main.py *)

(** Request bodies, with the constraints of their [Field]s. *)
Module ProductIn.
Record t := mk { name : string; price : float }.

(** [min_length=1] and [gt=0]. *)
Definition valid (x : t) : bool :=
  (1 <=? Z.of_nat (String.length (name x)))
  && PrimFloat.ltb PrimFloat.zero (price x).
End ProductIn.

Module SaleIn.
Record t := mk { product_id : Z; quantity : Z }.

(** [gt=0]. *)
Definition valid (x : t) : bool := 0 <? quantity x.
End SaleIn.

Module DailyReport.
Record t := mk { date : Py.date; total_revenue : float; total_items : Z }.
End DailyReport.

(** The application: the database and the process-wide sale counter. *)
Record App := mk_App { db : Store.t; SALE_COUNT : Z }.

Definition init_app : App := mk_App Store.empty 0.

Definition create_product (payload : ProductIn.t) (clk : clock) (app : App)
  : result Product.t * App :=
  match Store.first_product_named (ProductIn.name payload) (db app) with
  | Some _ => (Raise (HTTPException 400 "Product already exists"), app)
  | None =>
      let '(p, db') :=
        Store.add_product (ProductIn.name payload) (ProductIn.price payload)
                          clk (db app) in
      (Ok p, mk_App db' (SALE_COUNT app))
  end.

Definition list_products (app : App) : list Product.t :=
  order_by Product.id (Store.products (db app)).

Definition create_sale (payload : SaleIn.t) (clk : clock) (app : App)
  : result Sale.t * App :=
  match Store.get_product (SaleIn.product_id payload) (db app) with
  | None => (Raise (HTTPException 404 "Product not found"), app)
  | Some product =>
      match float_mul_int (Product.price product) (SaleIn.quantity payload) with
      | None => (Raise (OverflowError "int too large to convert to float"), app)
      | Some total =>
          let '(s, db') :=
            Store.add_sale (Product.id product) (SaleIn.quantity payload)
                           total clk (db app) in
          (Ok s, mk_App db' (SALE_COUNT app + 1))
      end
  end.

Definition list_sales (app : App) : list Sale.t :=
  order_by (desc Sale.created_at) (Store.sales (db app)).

(** The query [q] of [daily_report]: the sales between [start_dt] and
    [end_dt], both ends included.  The query names no order; its rows come
    in the order of the table. *)
Definition daily_query (start_dt end_dt : datetime) (app : App) : list Sale.t :=
  filter (fun s => (start_dt <=? Sale.created_at s)
                   && (Sale.created_at s <=? end_dt))
         (Store.sales (db app)).

Definition daily_report (d : option date) (clk : clock) (app : App)
  : DailyReport.t :=
  let d := match d with None => today clk | Some d => d end in
  let start_dt := combine d time_min in
  let end_dt := combine d time_max in
  let q := daily_query start_dt end_dt in
  let total_revenue := sum_float (map Sale.total (q app)) in
  let total_items := sum_int (map Sale.quantity (q app)) in
  DailyReport.mk d total_revenue total_items.

(** *** One request against the application *)

Inductive request : Type :=
| POST_products (body : ProductIn.t)
| GET_products
| POST_sales (body : SaleIn.t)
| GET_sales
| GET_reports_daily (d : option date).

Inductive response : Type :=
| ProductResponse (r : result Product.t)
| ProductsResponse (l : list Product.t)
| SaleResponse (r : result Sale.t)
| SalesResponse (l : list Sale.t)
| ReportResponse (r : DailyReport.t).

(** The body of a request is validated against its model before the handler
    runs; a body that fails is answered without calling the handler. *)
Definition handle (req : request) (clk : clock) (app : App) : response * App :=
  match req with
  | POST_products body =>
      if ProductIn.valid body
      then let '(r, app') := create_product body clk app in
           (ProductResponse r, app')
      else (ProductResponse (Raise RequestValidationError), app)
  | GET_products => (ProductsResponse (list_products app), app)
  | POST_sales body =>
      if SaleIn.valid body
      then let '(r, app') := create_sale body clk app in
           (SaleResponse r, app')
      else (SaleResponse (Raise RequestValidationError), app)
  | GET_sales => (SalesResponse (list_sales app), app)
  | GET_reports_daily d => (ReportResponse (daily_report d clk app), app)
  end.

(** The states the application reaches from the empty database. *)
Inductive reachable : App -> Prop :=
| reachable_init : reachable init_app
| reachable_step : forall app req clk,
    reachable app -> reachable (snd (handle req clk app)).

(* ================================================================== *)
(** ** The statements of the specification *)

(** Following the specification's words: the sales whose [created_at] falls
    on day [d], in the order of the table. *)
Definition sales_on_day (d : date) (app : App) : list Sale.t :=
  filter (fun s => date_of (Sale.created_at s) =? d) (Store.sales (db app)).

(** The sum of a list of integers. *)
Definition total_of (xs : list Z) : Z := fold_right Z.add 0 xs.

(** A sale is backed by the catalog when a product carries its
    [product_id] and its [total] is that product's price times its
    quantity, as [float * int] computes it. *)
Definition backed (products : list Product.t) (s : Sale.t) : Prop :=
  exists p, In p products
    /\ Product.id p = Sale.product_id s
    /\ float_mul_int (Product.price p) (Sale.quantity s) = Some (Sale.total s).

(** What the constraints of the schema and the checks of the handlers keep
    true of the store. *)
Record consistent (app : App) : Prop := mk_consistent {
  product_ids_unique : NoDup (map Product.id (Store.products (db app)));
  product_ids_ascending :
    StronglySorted (key_le Product.id) (Store.products (db app));
  product_names_unique : NoDup (map Product.name (Store.products (db app)));
  sale_ids_unique : NoDup (map Sale.id (Store.sales (db app)));
  sales_backed : Forall (backed (Store.products (db app))) (Store.sales (db app))
}.


(* ================================================================== *)
(** ** A worked scenario *)

(** Noon of day 20000, on a server whose local zone is UTC. *)
Definition noon : clock := mk_clock (combine 20000 (mk_time 12 0 0 0)) 0.

(** The first and the last microsecond of a day, on the same server. *)
Definition first_us (d : date) : clock := mk_clock (combine d time_min) 0.
Definition last_us (d : date) : clock := mk_clock (combine d time_max) 0.

(** A server one hour east of UTC, half an hour before UTC midnight of day
    20000: its local date is already day 20001. *)
Definition late_evening : clock :=
  mk_clock (combine 20000 (mk_time 23 30 0 0)) (3600 * 1000000).

Definition apple_in : ProductIn.t := ProductIn.mk "Apple" 1.5%float.
Definition pear_in : ProductIn.t := ProductIn.mk "Pear" 0.25%float.

Definition apple : Product.t := Product.mk 1 "Apple" 1.5%float (utcnow noon).
Definition apple_sale : Sale.t := Sale.mk 1 1 4 6%float (utcnow noon).

(** The application after [POST /products] with the apple ... *)
Definition app_apple : App := snd (handle (POST_products apple_in) noon init_app).

(** ... and after [POST /sales] of four apples. *)
Definition app_sold : App := snd (handle (POST_sales (SaleIn.mk 1 4)) noon app_apple).

(** One apple sold in the first microsecond of day 20000, two in its last,
    four in the first microsecond of day 20001. *)
Definition app_boundary : App :=
  let a1 := snd (handle (POST_sales (SaleIn.mk 1 1)) (first_us 20000) app_apple) in
  let a2 := snd (handle (POST_sales (SaleIn.mk 1 2)) (last_us 20000) a1) in
  snd (handle (POST_sales (SaleIn.mk 1 4)) (first_us 20001) a2).

(** A quantity that no binary64 float can hold. *)
Definition huge_quantity : Z := 2 ^ 1024.

(* ================================================================== *)
(** ** The relationships of models.py, and runs of requests *)

(** [Product.sales], the relationship of [Product] to [Sale]: the sales
    whose foreign key [product_id] is the product's [id]. *)
Definition sales_of_product (p : Product.t) (db : Store.t) : list Sale.t :=
  filter (fun s => Sale.product_id s =? Product.id p) (Store.sales db).

(** [Sale.product], the other side of the relationship: the product the
    foreign key names, if there is one. *)
Definition product_of_sale (s : Sale.t) (db : Store.t) : option Product.t :=
  Store.get_product (Sale.product_id s) db.

(** Requests handled one after the other, each at its own clock reading. *)
Fixpoint run (reqs : list (request * clock)) (app : App) : App :=
  match reqs with
  | [] => app
  | (req, clk) :: reqs' => run reqs' (snd (handle req clk app))
  end.

(** What the [Field] constraints of [ProductIn] and [SaleIn] ask of a row. *)
Definition product_row_valid (p : Product.t) : Prop :=
  Product.name p <> EmptyString
  /\ PrimFloat.ltb PrimFloat.zero (Product.price p) = true.

Definition sale_row_valid (s : Sale.t) : Prop := 0 < Sale.quantity s.

(** *** More of the scenario *)

(** Three in the afternoon of day 20000, on the same server as [noon]. *)
Definition afternoon : clock := mk_clock (combine 20000 (mk_time 15 0 0 0)) 0.

Definition pear : Product.t := Product.mk 2 "Pear" 0.25%float (utcnow noon).

(** The application after the apple and the pear. *)
Definition app_pear : App := snd (handle (POST_products pear_in) noon app_apple).

(** The sale of two apples in the afternoon. *)
Definition afternoon_sale : Sale.t := Sale.mk 2 1 2 3%float (utcnow afternoon).

(* ================================================================== *)
(** ** When [float(n)] overflows

    The conversion follows [binary_normalize]: an integer of at most 53
    bits is kept as it is; a longer one is shifted right to 53 bits and
    rounded, and the rounding may carry into a 54th bit. *)

(** The bit length of a positive integer. *)
Lemma digits2_pos_bounds (p : positive) :
  2 ^ (Zpos (digits2_pos p) - 1) <= Zpos p < 2 ^ Zpos (digits2_pos p).
Proof.
  induction p as [p IH | p IH |]; cbn [digits2_pos].
  - rewrite Pos2Z.inj_succ.
    replace (Z.succ (Zpos (digits2_pos p)) - 1) with (Z.succ (Zpos (digits2_pos p) - 1)) by lia.
    rewrite !Z.pow_succ_r by lia. lia.
  - rewrite Pos2Z.inj_succ.
    replace (Z.succ (Zpos (digits2_pos p)) - 1) with (Z.succ (Zpos (digits2_pos p) - 1)) by lia.
    rewrite !Z.pow_succ_r by lia. lia.
  - simpl. lia.
Qed.

Lemma shr_1_spec (mrs : shr_record) :
  0 <= shr_m mrs ->
  shr_m (shr_1 mrs) = shr_m mrs / 2 /\ shr_r (shr_1 mrs) = Z.odd (shr_m mrs).
Proof.
  destruct mrs as [m r s]. cbn [shr_m].
  intros Hm. destruct m as [|[p|p|]|p]; cbn [shr_1 shr_m shr_r]; try lia.
  - split; [symmetry; apply Z.div_0_l; lia | reflexivity].
  - split; [|reflexivity].
    rewrite Pos2Z.inj_xI. apply (Z.div_unique _ 2 _ 1); lia.
  - split; [|reflexivity].
    rewrite Pos2Z.inj_xO. apply (Z.div_unique _ 2 _ 0); lia.
  - split; reflexivity.
Qed.

Lemma iter_shr_1_spec (k : positive) : forall mrs : shr_record,
  0 <= shr_m mrs ->
  shr_m (iter_pos shr_1 k mrs) = shr_m mrs / 2 ^ Zpos k
  /\ shr_r (iter_pos shr_1 k mrs) = Z.odd (shr_m mrs / 2 ^ (Zpos k - 1)).
Proof.
  induction k as [k IH | k IH |]; intros mrs Hm; cbn [iter_pos].
  - destruct (shr_1_spec mrs Hm) as [E1 _].
    assert (H1 : 0 <= shr_m (shr_1 mrs)) by (rewrite E1; apply Z.div_pos; lia).
    destruct (IH _ H1) as [E2 _].
    assert (H2 : 0 <= shr_m (iter_pos shr_1 k (shr_1 mrs))).
    { rewrite E2. apply Z.div_pos; [lia | apply Z.pow_pos_nonneg; lia]. }
    destruct (IH _ H2) as [E3 R3].
    rewrite E3, R3, E2, E1.
    rewrite !Z.div_div by (try apply Z.pow_pos_nonneg; lia).
    rewrite <- (Z.pow_1_r 2) at 1 5.
    rewrite <- !Z.pow_add_r by lia.
    split; f_equal; f_equal; f_equal; lia.
  - destruct (IH _ Hm) as [E2 _].
    assert (H2 : 0 <= shr_m (iter_pos shr_1 k mrs)).
    { rewrite E2. apply Z.div_pos; [lia | apply Z.pow_pos_nonneg; lia]. }
    destruct (IH _ H2) as [E3 R3].
    rewrite E3, R3, E2.
    rewrite !Z.div_div by (try apply Z.pow_pos_nonneg; lia).
    rewrite <- !Z.pow_add_r by lia.
    split; f_equal; f_equal; f_equal; lia.
  - destruct (shr_1_spec mrs Hm) as [E1 R1].
    rewrite E1, R1. simpl. rewrite Z.div_1_r. split; reflexivity.
Qed.

Lemma Zdigits2_unique (m e : Z) :
  0 < m -> 2 ^ (e - 1) <= m < 2 ^ e -> Zdigits2 m = e.
Proof.
  intros Hm [Hlo Hhi].
  destruct m as [|p|p]; try lia. cbn [Zdigits2].
  pose proof (digits2_pos_bounds p) as [Dlo Dhi].
  set (d := Zpos (digits2_pos p)) in *.
  assert (He : 0 < e).
  { destruct (Z.ltb_spec 0 e) as [|Hneg]; [assumption|].
    destruct (Z.eq_dec e 0) as [-> | Hne]; [simpl in Hhi; lia|].
    rewrite (Z.pow_neg_r 2 e) in Hhi by lia. lia. }
  destruct (Z.lt_trichotomy d e) as [Hlt | [Heq | Hgt]]; [|exact Heq|].
  - assert (2 ^ d <= 2 ^ (e - 1)) by (apply Z.pow_le_mono_r; lia). lia.
  - assert (2 ^ e <= 2 ^ (d - 1)) by (apply Z.pow_le_mono_r; lia). lia.
Qed.

Lemma round_nearest_even_cases (mrs : shr_record) :
  let m2 := round_nearest_even (shr_m mrs) (loc_of_shr_record mrs) in
  (m2 = shr_m mrs \/ m2 = shr_m mrs + 1)
  /\ (shr_r mrs = false -> m2 = shr_m mrs)
  /\ (shr_r mrs = true -> Z.odd (shr_m mrs) = true -> m2 = shr_m mrs + 1).
Proof.
  destruct mrs as [m [|] [|]]; cbn [shr_m shr_r loc_of_shr_record round_nearest_even];
    rewrite <- ?Z.negb_odd; destruct (Z.odd m); cbn [negb];
    repeat split; auto; try discriminate.
Qed.

Lemma fexp_64 (e : Z) : fexp 53 1024 e = Z.max (e - 53) (-1074).
Proof. reflexivity. Qed.

(** The conversion of a positive integer of more than 53 bits. *)
Lemma binary_normalize_long (p : positive) :
  let d := Zpos (digits2_pos p) in
  let k := d - 53 in
  53 < d ->
  exists m2 : Z,
    let m1 := Zpos p / 2 ^ k in
    2 ^ 52 <= m1 < 2 ^ 53
    /\ (m2 = m1 \/ m2 = m1 + 1)
    /\ (Z.odd (Zpos p / 2 ^ (k - 1)) = false -> m2 = m1)
    /\ (Z.odd (Zpos p / 2 ^ (k - 1)) = true -> Z.odd m1 = true -> m2 = m1 + 1)
    /\ binary_normalize 53 1024 (Zpos p) 0 false
       = if m2 <? 2 ^ 53
         then if k <=? 971 then S754_finite false (Z.to_pos m2) k
              else S754_infinity false
         else if k + 1 <=? 971 then S754_finite false (Z.to_pos (2 ^ 52)) (k + 1)
              else S754_infinity false.
Proof.
  intros d k Hd.
  pose proof (digits2_pos_bounds p) as [Dlo Dhi]. fold d in Dlo, Dhi.
  assert (Hk : 0 < k) by (unfold k; lia).
  destruct k as [|kp|kp] eqn:Ek; try lia.
  set (mrs0 := {| shr_m := Zpos p; shr_r := false; shr_s := false |}).
  destruct (iter_shr_1_spec kp mrs0 ltac:(cbn; lia)) as [Em Er].
  cbn [shr_m mrs0] in Em, Er.
  set (mrs1 := iter_pos shr_1 kp mrs0) in *.
  destruct (round_nearest_even_cases mrs1) as (Hcases & Hdown & Hup).
  set (m2 := round_nearest_even (shr_m mrs1) (loc_of_shr_record mrs1)) in *.
  rewrite Em in Hcases, Hdown, Hup. rewrite Er in Hdown, Hup.
  assert (Hm1 : 2 ^ 52 <= Zpos p / 2 ^ Zpos kp < 2 ^ 53).
  { assert (E1 : 2 ^ (d - 1) = 2 ^ 52 * 2 ^ Zpos kp).
    { rewrite <- Z.pow_add_r by lia. f_equal. lia. }
    assert (E2 : 2 ^ d = 2 ^ 53 * 2 ^ Zpos kp).
    { rewrite <- Z.pow_add_r by lia. f_equal. lia. }
    assert (Hpow : 0 < 2 ^ Zpos kp) by (apply Z.pow_pos_nonneg; lia).
    split.
    - apply Z.div_le_lower_bound; lia.
    - apply Z.div_lt_upper_bound; lia. }
  exists m2. cbv zeta.
  repeat (split; [assumption|]).
  (* the computation *)
  assert (Esh1 : shr_fexp 53 1024 (Zpos p) 0 loc_Exact = (mrs1, Zpos kp)).
  { unfold shr_fexp. cbn [Zdigits2]. fold d. rewrite fexp_64.
    replace (Z.max (d + 0 - 53) (-1074) - 0) with (Zpos kp) by lia.
    reflexivity. }
  assert (Esh2 : shr_fexp 53 1024 m2 (Zpos kp) loc_Exact
                 = if m2 <? 2 ^ 53
                   then ({| shr_m := m2; shr_r := false; shr_s := false |}, Zpos kp)
                   else ({| shr_m := 2 ^ 52; shr_r := false; shr_s := false |}, Zpos kp + 1)).
  { unfold shr_fexp. rewrite fexp_64.
    destruct (Z.ltb_spec m2 (2 ^ 53)) as [Hlt | Hge].
    - rewrite (Zdigits2_unique m2 53) by lia.
      replace (Z.max (53 + Zpos kp - 53) (-1074) - Zpos kp) with 0 by lia.
      reflexivity.
    - assert (E2 : m2 = 2 ^ 53) by lia.
      rewrite (Zdigits2_unique m2 54) by (rewrite E2; simpl; lia).
      replace (Z.max (54 + Zpos kp - 53) (-1074) - Zpos kp) with 1 by lia.
      rewrite E2. reflexivity. }
  unfold binary_normalize, binary_round.
  rewrite fexp_64. fold d.
  replace (Z.max (d + 0 - 53) (-1074)) with (Zpos kp) by lia.
  change (shl_align p 0 (Zpos kp)) with (p, 0).
  cbv beta iota.
  unfold binary_round_aux. rewrite Esh1. cbv beta iota. fold m2.
  rewrite Esh2.
  destruct (Z.ltb_spec m2 (2 ^ 53)) as [Hlt | Hge]; cbv beta iota.
  - cbn [shr_m]. destruct m2 as [|q|q] eqn:E2; try lia. reflexivity.
  - reflexivity.
Qed.




Lemma pow2_split (a b : Z) : 0 <= a -> 0 <= b -> 2 ^ (a + b) = 2 ^ a * 2 ^ b.
Proof. intros. now apply Z.pow_add_r. Qed.


(** From [2^1024 - 2^970] on it raises. *)
Lemma float_of_int_overflow (n : Z) :
  2 ^ 1024 - 2 ^ 970 <= n -> float_of_int n = None.
Proof.
  intros Hge. unfold float_of_int.
  set (X := 2 ^ 970) in *.
  assert (HX : 0 < X) by (apply Z.pow_pos_nonneg; lia).
  assert (E1024 : 2 ^ 1024 = 2 ^ 54 * X) by (apply (pow2_split 54 970); lia).
  assert (E1023 : 2 ^ 1023 = 2 ^ 53 * X) by (apply (pow2_split 53 970); lia).
  destruct n as [|p|p]; try lia.
  pose proof (digits2_pos_bounds p) as [Dlo Dhi].
  set (d := Zpos (digits2_pos p)) in *.
  assert (Hd : 1024 <= d).
  { destruct (Z.le_gt_cases 1024 d) as [|Hsmall]; [assumption|].
    assert (2 ^ d <= 2 ^ 1023) by (apply Z.pow_le_mono_r; lia). lia. }
  destruct (binary_normalize_long p ltac:(fold d; lia))
    as (m2 & Hm1 & Hcases & Hdown & Hup & ->).
  fold d in Hm1, Hcases, Hdown, Hup |- *.
  destruct (Z.leb_spec (d - 53 + 1) 971); [lia|].
  destruct (Z.leb_spec (d - 53) 971) as [Hk|]; [|now destruct (m2 <? 2 ^ 53)].
  assert (Ed : d - 53 = 971) by lia.
  rewrite Ed in *.
  replace (971 - 1) with 970 in * by lia. fold X in Hdown, Hup.
  assert (E971 : 2 ^ 971 = X * 2) by (unfold X; apply (pow2_split 970 1); lia).
  rewrite E971 in *.
  rewrite <- Z.div_div in * by lia.
  set (h := Zpos p / X) in *.
  assert (Hlo : 2 ^ 54 - 1 <= h) by (apply Z.div_le_lower_bound; lia).
  assert (Hhi : h < 2 ^ 54).
  { apply Z.div_lt_upper_bound; [lia|]. replace d with 1024 in Dhi by lia. lia. }
  assert (Eh : h = 2 ^ 54 - 1) by lia.
  assert (Hodd : Z.odd h = true) by (rewrite Eh; reflexivity).
  assert (Hm1eq : h / 2 = 2 ^ 53 - 1) by (rewrite Eh; reflexivity).
  assert (Hodd1 : Z.odd (h / 2) = true) by (rewrite Hm1eq; reflexivity).
  specialize (Hup Hodd Hodd1).
  destruct (Z.ltb_spec m2 (2 ^ 53)); [lia | reflexivity].
Qed.

(* ================================================================== *)
(** ** Facts about [ORDER BY] *)

Section OrderByFacts.
Context {A : Type}.
Variable key : A -> Z.

Lemma insert_by_perm (a : A) (l : list A) :
  Permutation (a :: l) (insert_by key a l).
Proof.
  induction l as [|b l IH]; simpl.
  - apply Permutation_refl.
  - destruct (key a <=? key b).
    + apply Permutation_refl.
    + eapply perm_trans; [apply perm_swap|].
      now apply perm_skip.
Qed.

Lemma order_by_perm (l : list A) : Permutation l (order_by key l).
Proof.
  induction l as [|a l IH]; simpl.
  - constructor.
  - eapply perm_trans; [apply perm_skip, IH|].
    apply insert_by_perm.
Qed.

Lemma insert_by_Forall (P : A -> Prop) (a : A) (l : list A) :
  P a -> Forall P l -> Forall P (insert_by key a l).
Proof.
  intros Ha Hl.
  induction Hl as [|b l Hb Hl IH]; simpl.
  - now constructor.
  - destruct (key a <=? key b); repeat constructor; assumption.
Qed.

Lemma insert_by_sorted (a : A) (l : list A) :
  StronglySorted (key_le key) l -> StronglySorted (key_le key) (insert_by key a l).
Proof.
  induction 1 as [|b l Hs IH Hb]; simpl.
  - repeat constructor.
  - destruct (key a <=? key b) eqn:E.
    + apply Z.leb_le in E.
      constructor; [now constructor|].
      constructor; [exact E|].
      eapply Forall_impl; [|exact Hb].
      unfold key_le; intros; lia.
    + apply Z.leb_gt in E.
      constructor; [exact IH|].
      apply insert_by_Forall; [unfold key_le; lia | exact Hb].
Qed.

Lemma order_by_sorted (l : list A) : StronglySorted (key_le key) (order_by key l).
Proof.
  induction l as [|a l IH]; simpl.
  - constructor.
  - now apply insert_by_sorted.
Qed.

(** A list that is already in key order is returned as it is. *)
Lemma order_by_already_sorted (l : list A) :
  StronglySorted (key_le key) l -> order_by key l = l.
Proof.
  induction 1 as [|a l Hs IH Ha]; simpl; [reflexivity|].
  rewrite IH.
  destruct l as [|b l]; [reflexivity|]; simpl.
  inversion Ha as [|? ? Hab _]; subst.
  unfold key_le in Hab.
  apply Z.leb_le in Hab.
  now rewrite Hab.
Qed.

Lemma order_by_In (a : A) (l : list A) : In a (order_by key l) <-> In a l.
Proof.
  split; apply Permutation_in;
    [apply Permutation_sym|]; apply order_by_perm.
Qed.

Lemma order_by_length (l : list A) :
  List.length (order_by key l) = List.length l.
Proof. symmetry; apply Permutation_length, order_by_perm. Qed.

End OrderByFacts.

(* ================================================================== *)
(** ** Facts about days *)

Lemma combine_time_min (d : date) : combine d time_min = d * us_per_day.
Proof. unfold combine, time_min, mk_time; lia. Qed.

Lemma combine_time_max (d : date) :
  combine d time_max = d * us_per_day + (us_per_day - 1).
Proof. unfold combine, time_max, mk_time, us_per_day; lia. Qed.


(** A datetime lies between the first and the last microsecond of day [d]
    exactly when its date is [d]. *)
Lemma within_day_iff (d : date) (dt : datetime) :
  combine d time_min <= dt <= combine d time_max <-> date_of dt = d.
Proof.
  rewrite combine_time_min, combine_time_max.
  unfold date_of, us_per_day.
  split.
  - intros H. symmetry. apply (Z.div_unique dt 86400000000 d (dt - d * 86400000000)); lia.
  - intros <-.
    pose proof (Z.div_mod dt 86400000000 ltac:(lia)) as E.
    pose proof (Z.mod_pos_bound dt 86400000000 ltac:(lia)) as B.
    lia.
Qed.

Lemma date_of_combine (d : date) (t : time) :
  0 <= t < us_per_day -> date_of (combine d t) = d.
Proof.
  intros H. unfold date_of, combine.
  symmetry. apply (Z.div_unique _ us_per_day d t); [lia|].
  lia.
Qed.

(* ================================================================== *)
(** ** Queries *)

Lemma filter_perm {A : Type} (f : A -> bool) :
  forall l l' : list A,
    Permutation l l' -> Permutation (filter f l) (filter f l').
Proof.
  intros l l'.
  induction 1 as [| x l l' _ IH | x y l | l l' l'' _ IH1 _ IH2]; simpl.
  - constructor.
  - destruct (f x); [now constructor | exact IH].
  - destruct (f x), (f y);
      try apply Permutation_refl; apply perm_swap.
  - eapply perm_trans; eassumption.
Qed.

Lemma filter_nil_iff {A : Type} (f : A -> bool) (l : list A) :
  filter f l = [] <-> forall x, In x l -> f x = false.
Proof.
  induction l as [|a l IH]; simpl.
  - split; [intros _ x [] | reflexivity].
  - destruct (f a) eqn:E; split.
    + discriminate.
    + intros H. specialize (H a (or_introl eq_refl)). congruence.
    + intros H x [<-|Hx]; [exact E | now apply IH].
    + intros H. apply IH. intros x Hx. apply H. now right.
Qed.

(** Under the primary-key constraint, [db.get] returns the row that carries
    the key. *)
Lemma get_product_In (db : Store.t) (p : Product.t) :
  NoDup (map Product.id (Store.products db)) ->
  In p (Store.products db) ->
  Store.get_product (Product.id p) db = Some p.
Proof.
  unfold Store.get_product.
  induction (Store.products db) as [|a l IH]; simpl; intros Hnd Hin.
  - contradiction.
  - inversion Hnd as [|? ? Hnotin Hnd']; subst.
    destruct (Product.id a =? Product.id p) eqn:E.
    + destruct Hin as [-> | Hin]; [reflexivity|].
      apply Z.eqb_eq in E.
      exfalso. apply Hnotin. rewrite E. now apply in_map.
    + destruct Hin as [-> | Hin].
      * rewrite Z.eqb_refl in E. discriminate.
      * now apply IH.
Qed.


Lemma first_product_named_In (db : Store.t) (p : Product.t) :
  In p (Store.products db) ->
  exists p', Store.first_product_named (Product.name p) db = Some p'.
Proof.
  unfold Store.first_product_named.
  induction (Store.products db) as [|a l IH]; simpl; intros Hin.
  - contradiction.
  - destruct (String.eqb (Product.name a) (Product.name p)) eqn:E.
    + now exists a.
    + destruct Hin as [-> | Hin].
      * rewrite String.eqb_refl in E. discriminate.
      * now apply IH.
Qed.

Lemma first_product_named_missing (db : Store.t) (n : string) :
  (forall p, In p (Store.products db) -> Product.name p <> n) ->
  Store.first_product_named n db = None.
Proof.
  unfold Store.first_product_named.
  induction (Store.products db) as [|a l IH]; simpl; intros H; [reflexivity|].
  destruct (String.eqb (Product.name a) n) eqn:E.
  - apply String.eqb_eq in E. exfalso. apply (H a); auto.
  - apply IH. intros p Hp. apply H. now right.
Qed.

Lemma filter_name_missing (l : list Product.t) (n : string) :
  (forall p, In p l -> Product.name p <> n) ->
  filter (fun p => String.eqb (Product.name p) n) l = [].
Proof.
  intros H. apply filter_nil_iff. intros p Hp.
  apply String.eqb_neq. now apply H.
Qed.

Lemma ProductIn_valid_intro (body : ProductIn.t) :
  ProductIn.name body <> EmptyString ->
  PrimFloat.ltb PrimFloat.zero (ProductIn.price body) = true ->
  ProductIn.valid body = true.
Proof.
  intros Hn Hp. unfold ProductIn.valid. rewrite Hp, andb_true_r.
  destruct (ProductIn.name body) as [|c s]; [congruence|].
  apply Z.leb_le. simpl String.length. lia.
Qed.

(* ================================================================== *)
(** ** The catalog *)

(** C3.  When a product with the name of the request is already in the
    store, [create_product] leaves with the 400 "Product already exists"
    (the conflict error) and the application is as it was: no row is
    written, and [list_products] answers the same list, of the same length,
    before and after.  [POST /products] with such a body leaves the
    application as it was, whether the body passes validation or not. *)
Theorem create_product_duplicate_name
  (payload : ProductIn.t) (clk : clock) (app : App) (p : Product.t) :
  In p (Store.products (db app)) ->
  Product.name p = ProductIn.name payload ->
  create_product payload clk app
    = (Raise (HTTPException 400 "Product already exists"), app)
  /\ list_products (snd (create_product payload clk app)) = list_products app
  /\ List.length (list_products (snd (create_product payload clk app)))
     = List.length (list_products app)
  /\ snd (handle (POST_products payload) clk app) = app.
Proof.
  intros Hin Hname.
  assert (E : create_product payload clk app
              = (Raise (HTTPException 400 "Product already exists"), app)).
  { unfold create_product.
    destruct (first_product_named_In (db app) p Hin) as [p' Hp'].
    rewrite Hname in Hp'. now rewrite Hp'. }
  rewrite E. cbn [snd handle]. rewrite E.
  repeat split. now destruct (ProductIn.valid payload).
Qed.

Lemma create_product_duplicate_name_witness :
  create_product apple_in noon app_apple
    = (Raise (HTTPException 400 "Product already exists"), app_apple)
  /\ list_products (snd (create_product apple_in noon app_apple))
     = list_products app_apple
  /\ List.length (list_products (snd (create_product apple_in noon app_apple)))
     = List.length (list_products app_apple)
  /\ snd (handle (POST_products apple_in) noon app_apple) = app_apple.
Proof.
  apply (create_product_duplicate_name apple_in noon app_apple apple).
  - vm_compute. left. reflexivity.
  - reflexivity.
Defined.

(** C7.  For a request whose name is not empty, whose price is above zero
    and whose name no product of the store carries, [POST /products]
    returns the new product, with the name and price of the request, the id
    the store assigned and the [created_at] of the column default; the row
    is appended to the table, and the list [list_products] answers next
    holds exactly one product of that name: the new one. *)
Theorem create_product_fresh_name
  (body : ProductIn.t) (clk : clock) (app : App) :
  ProductIn.name body <> EmptyString ->
  PrimFloat.ltb PrimFloat.zero (ProductIn.price body) = true ->
  (forall p, In p (Store.products (db app)) -> Product.name p <> ProductIn.name body) ->
  exists p app',
    handle (POST_products body) clk app = (ProductResponse (Ok p), app')
    /\ create_product body clk app = (Ok p, app')
    /\ Product.name p = ProductIn.name body
    /\ Product.price p = ProductIn.price body
    /\ Product.id p = Store.next_id (map Product.id (Store.products (db app)))
    /\ Product.created_at p = utcnow clk
    /\ Store.products (db app') = Store.products (db app) ++ [p]
    /\ filter (fun x => String.eqb (Product.name x) (ProductIn.name body))
              (list_products app') = [p].
Proof.
  intros Hname Hprice Hfresh.
  pose proof (ProductIn_valid_intro body Hname Hprice) as Hvalid.
  pose proof (first_product_named_missing (db app) _ Hfresh) as Hnone.
  set (p := Product.mk (Store.next_id (map Product.id (Store.products (db app))))
                       (ProductIn.name body) (ProductIn.price body) (utcnow clk)).
  set (app' := mk_App (Store.mk (Store.products (db app) ++ [p]) (Store.sales (db app)))
                      (SALE_COUNT app)).
  assert (E : create_product body clk app = (Ok p, app')).
  { unfold create_product. rewrite Hnone. reflexivity. }
  exists p, app'.
  repeat split; try reflexivity.
  - simpl. rewrite Hvalid, E. reflexivity.
  - exact E.
  - apply Permutation_length_1_inv.
    eapply perm_trans; [|apply filter_perm, order_by_perm].
    simpl. rewrite filter_app, (filter_name_missing _ _ Hfresh).
    simpl. rewrite String.eqb_refl. apply Permutation_refl.
Qed.

Lemma create_product_fresh_name_witness :
  exists p app',
    handle (POST_products pear_in) noon app_apple = (ProductResponse (Ok p), app')
    /\ create_product pear_in noon app_apple = (Ok p, app')
    /\ Product.name p = ProductIn.name pear_in
    /\ Product.price p = ProductIn.price pear_in
    /\ Product.id p = Store.next_id (map Product.id (Store.products (db app_apple)))
    /\ Product.created_at p = utcnow noon
    /\ Store.products (db app') = Store.products (db app_apple) ++ [p]
    /\ filter (fun x => String.eqb (Product.name x) (ProductIn.name pear_in))
              (list_products app') = [p].
Proof.
  apply (create_product_fresh_name pear_in noon app_apple).
  - discriminate.
  - vm_compute. reflexivity.
  - intros p Hp. vm_compute in Hp. destruct Hp as [<- | []]. discriminate.
Defined.

(* ================================================================== *)
(** ** The ledger *)



(** [float(4)] is [4.0]; the last integer below the threshold converts, the
    threshold does not. *)
Example float_of_int_4 : float_of_int 4 = Some 4%float.
Proof. vm_compute. reflexivity. Qed.

Example float_of_int_last : float_of_int (2 ^ 1024 - 2 ^ 970 - 1) <> None.
Proof. vm_compute. discriminate. Qed.

Example float_of_int_threshold : float_of_int (2 ^ 1024 - 2 ^ 970) = None.
Proof. vm_compute. reflexivity. Qed.

(** The scenario's product is in the store with id 1, the quantity is above
    zero, and the multiplication that computes [total] raises: the sale is
    refused and the application is as it was. *)
Example create_sale_huge_quantity :
  Store.products (db app_apple) = [apple]
  /\ 0 < huge_quantity
  /\ create_sale (SaleIn.mk 1 huge_quantity) noon app_apple
     = (Raise (OverflowError "int too large to convert to float"), app_apple).
Proof.
  split; [|split].
  - vm_compute. reflexivity.
  - reflexivity.
  - vm_compute. reflexivity.
Qed.




(** From the threshold on, the sale of a product of the store is refused
    with the overflow, and nothing is written. *)
Lemma create_sale_overflow
  (payload : SaleIn.t) (clk : clock) (app : App) (p : Product.t) :
  NoDup (map Product.id (Store.products (db app))) ->
  In p (Store.products (db app)) ->
  Product.id p = SaleIn.product_id payload ->
  2 ^ 1024 - 2 ^ 970 <= SaleIn.quantity payload ->
  create_sale payload clk app
  = (Raise (OverflowError "int too large to convert to float"), app).
Proof.
  intros Hpk Hin Hid Hbig.
  pose proof (get_product_In (db app) p Hpk Hin) as Hget.
  rewrite Hid in Hget.
  unfold create_sale, float_mul_int.
  now rewrite Hget, (float_of_int_overflow _ Hbig).
Qed.

(** The scenario of the tests: four apples at 1.5 make 6.0. *)
Example four_apples :
  fst (create_sale (SaleIn.mk 1 4) noon app_apple) = Ok apple_sale.
Proof. vm_compute. reflexivity. Qed.

(* ================================================================== *)
(** ** What every reachable state satisfies *)

(** The store's keys are fresh: the next id is above every id in use. *)
Lemma next_id_above (ids : list Z) (i : Z) : In i ids -> i < Store.next_id ids.
Proof.
  unfold Store.next_id.
  induction ids as [|j ids IH]; cbn [fold_right In]; [contradiction|].
  intros [-> | Hi]; [lia|].
  specialize (IH Hi). lia.
Qed.

Lemma next_id_fresh (ids : list Z) : ~ In (Store.next_id ids) ids.
Proof. intros H. apply next_id_above in H. lia. Qed.

Lemma NoDup_map_inj {A B : Type} (f : A -> B) (l : list A) (a b : A) :
  NoDup (map f l) -> In a l -> In b l -> f a = f b -> a = b.
Proof.
  induction l as [|x l IH]; simpl; intros Hnd Ha Hb E; [contradiction|].
  inversion Hnd as [|? ? Hx Hnd']; subst.
  destruct Ha as [-> | Ha], Hb as [-> | Hb]; try reflexivity.
  - exfalso. apply Hx. rewrite E. now apply in_map.
  - exfalso. apply Hx. rewrite <- E. now apply in_map.
  - now apply IH.
Qed.

Lemma NoDup_snoc {A : Type} (l : list A) (a : A) :
  NoDup l -> ~ In a l -> NoDup (l ++ [a]).
Proof.
  intros Hl Ha.
  apply (Permutation_NoDup (l := a :: l)).
  - apply Permutation_cons_append.
  - now constructor.
Qed.

Lemma StronglySorted_snoc {A : Type} (R : A -> A -> Prop) (l : list A) (a : A) :
  StronglySorted R l -> Forall (fun x => R x a) l -> StronglySorted R (l ++ [a]).
Proof.
  induction 1 as [|b l Hs IH Hb]; simpl; intros Ha.
  - repeat constructor.
  - inversion Ha as [|? ? Hba Ha']; subst.
    constructor; [now apply IH|].
    apply Forall_app. split; [exact Hb | now constructor].
Qed.

Lemma backed_more (products : list Product.t) (p : Product.t) (s : Sale.t) :
  backed products s -> backed (products ++ [p]) s.
Proof.
  intros (p0 & Hin & Hid & Htot).
  exists p0. split; [apply in_or_app; now left | now split].
Qed.

Lemma consistent_init : consistent init_app.
Proof. split; simpl; constructor. Qed.

Lemma create_product_consistent (payload : ProductIn.t) (clk : clock) (app : App) :
  consistent app -> consistent (snd (create_product payload clk app)).
Proof.
  intros [Hids Hasc Hnames Hsids Hback].
  unfold create_product.
  destruct (Store.first_product_named (ProductIn.name payload) (db app)) eqn:E;
    [now split|].
  simpl. split; simpl.
  - rewrite map_app. simpl. apply NoDup_snoc; [exact Hids | apply next_id_fresh].
  - apply StronglySorted_snoc; [exact Hasc|].
    apply Forall_forall. intros x Hx. unfold key_le. simpl.
    apply Z.lt_le_incl, next_id_above. now apply in_map.
  - rewrite map_app. simpl. apply NoDup_snoc; [exact Hnames|].
    intros Hin. apply in_map_iff in Hin. destruct Hin as (x & Hx & Hin).
    pose proof (find_none _ _ E x Hin) as Hne. simpl in Hne.
    apply String.eqb_neq in Hne. contradiction.
  - exact Hsids.
  - eapply Forall_impl; [|exact Hback].
    intros s. apply backed_more.
Qed.

Lemma create_sale_consistent (payload : SaleIn.t) (clk : clock) (app : App) :
  consistent app -> consistent (snd (create_sale payload clk app)).
Proof.
  intros [Hids Hasc Hnames Hsids Hback].
  unfold create_sale.
  destruct (Store.get_product (SaleIn.product_id payload) (db app)) as [product|] eqn:E;
    [|now split].
  destruct (float_mul_int (Product.price product) (SaleIn.quantity payload))
    as [total|] eqn:Etot; [|now split].
  apply find_some in E. destruct E as [Hin Hid].
  simpl. split; simpl; try assumption.
  - rewrite map_app. simpl. apply NoDup_snoc; [exact Hsids | apply next_id_fresh].
  - apply Forall_app. split; [exact Hback|].
    constructor; [|constructor].
    exists product. simpl. auto.
Qed.

Lemma handle_consistent (req : request) (clk : clock) (app : App) :
  consistent app -> consistent (snd (handle req clk app)).
Proof.
  intros H. destruct req as [body | | body | | d]; simpl; try exact H.
  - destruct (ProductIn.valid body); [|exact H].
    pose proof (create_product_consistent body clk app H) as H'.
    destruct (create_product body clk app). exact H'.
  - destruct (SaleIn.valid body); [|exact H].
    pose proof (create_sale_consistent body clk app H) as H'.
    destruct (create_sale body clk app). exact H'.
Qed.

Lemma reachable_consistent (app : App) : reachable app -> consistent app.
Proof.
  induction 1 as [|app req clk _ IH].
  - apply consistent_init.
  - now apply handle_consistent.
Qed.

(** C5.  In every state reached from the empty store, a sale's
    [product_id] is the id of a product of the store, and its [total] is
    the price of the product with that id times its quantity. *)
Theorem sales_refer_to_products (app : App) (s : Sale.t) :
  reachable app ->
  In s (Store.sales (db app)) ->
  (exists p, In p (Store.products (db app)) /\ Product.id p = Sale.product_id s)
  /\ (forall p, In p (Store.products (db app)) ->
                Product.id p = Sale.product_id s ->
                float_mul_int (Product.price p) (Sale.quantity s) = Some (Sale.total s)).
Proof.
  intros Hreach Hs.
  destruct (reachable_consistent app Hreach) as [Hids _ _ _ Hback].
  rewrite Forall_forall in Hback.
  destruct (Hback s Hs) as (p0 & Hin0 & Hid0 & Htot0).
  split.
  - now exists p0.
  - intros p Hin Hid.
    assert (p = p0) as ->; [|exact Htot0].
    apply (NoDup_map_inj Product.id (Store.products (db app))); congruence.
Qed.

Lemma app_sold_reachable : reachable app_sold.
Proof.
  unfold app_sold, app_apple.
  do 2 apply reachable_step. apply reachable_init.
Qed.

Lemma sales_refer_to_products_witness :
  (exists p, In p (Store.products (db app_sold))
             /\ Product.id p = Sale.product_id apple_sale)
  /\ (forall p, In p (Store.products (db app_sold)) ->
                Product.id p = Sale.product_id apple_sale ->
                float_mul_int (Product.price p) (Sale.quantity apple_sale)
                = Some (Sale.total apple_sale)).
Proof.
  apply (sales_refer_to_products app_sold apple_sale).
  - exact app_sold_reachable.
  - vm_compute. left. reflexivity.
Defined.

(** Product names stay unique, and the table stays in id order, so that
    [list_products] answers the products in the order of their creation. *)
Lemma reachable_names_unique (app : App) :
  reachable app -> NoDup (map Product.name (Store.products (db app))).
Proof. intros H. apply reachable_consistent in H. now destruct H. Qed.

Lemma list_products_creation_order (app : App) :
  reachable app -> list_products app = Store.products (db app).
Proof.
  intros H. apply reachable_consistent in H. destruct H as [_ Hasc _ _ _].
  unfold list_products. now apply order_by_already_sorted.
Qed.

(* ================================================================== *)
(** ** Listing *)

Lemma StronglySorted_impl {A : Type} (R R' : A -> A -> Prop) (l : list A) :
  (forall x y, R x y -> R' x y) -> StronglySorted R l -> StronglySorted R' l.
Proof.
  intros HR. induction 1 as [|a l Hs IH Ha]; constructor.
  - exact IH.
  - eapply Forall_impl; [|exact Ha]. intros y. apply HR.
Qed.

(** C8.  [list_products] answers every product of the store, each as often
    as the table holds it, in ascending order of [id]. *)
Theorem list_products_ascending (app : App) :
  Permutation (Store.products (db app)) (list_products app)
  /\ StronglySorted (fun p p' => Product.id p <= Product.id p') (list_products app).
Proof.
  unfold list_products. split.
  - apply order_by_perm.
  - apply (order_by_sorted Product.id).
Qed.

(** C9.  [list_sales] answers every sale of the store, each as often as the
    table holds it, in descending order of [created_at]; nothing is said of
    the order of sales of one timestamp. *)
Theorem list_sales_descending (app : App) :
  Permutation (Store.sales (db app)) (list_sales app)
  /\ StronglySorted (fun s s' => Sale.created_at s >= Sale.created_at s')
                    (list_sales app).
Proof.
  unfold list_sales. split.
  - apply order_by_perm.
  - eapply StronglySorted_impl; [|apply (order_by_sorted (desc Sale.created_at))].
    unfold key_le, desc. intros s s' H. lia.
Qed.


(* ================================================================== *)
(** ** Rows are written once *)

(** No request changes or removes a row: after any request both tables are
    the tables of before, with at most new rows after them. *)
Lemma handle_keeps_rows (req : request) (clk : clock) (app : App) :
  exists ps ss,
    Store.products (db (snd (handle req clk app))) = Store.products (db app) ++ ps
    /\ Store.sales (db (snd (handle req clk app))) = Store.sales (db app) ++ ss.
Proof.
  destruct req as [body | | body | | d]; cbn [handle].
  - destruct (ProductIn.valid body);
      [|exists [], []; cbn [snd]; now rewrite !app_nil_r].
    unfold create_product.
    destruct (Store.first_product_named (ProductIn.name body) (db app)).
    + exists [], []. cbn [snd]. now rewrite !app_nil_r.
    + eexists _, []. cbn [snd Store.add_product db Store.products Store.sales].
      split; [reflexivity | now rewrite app_nil_r].
  - exists [], []. cbn [snd]. now rewrite !app_nil_r.
  - destruct (SaleIn.valid body);
      [|exists [], []; cbn [snd]; now rewrite !app_nil_r].
    unfold create_sale.
    destruct (Store.get_product (SaleIn.product_id body) (db app)) as [product|];
      [|exists [], []; cbn [snd]; now rewrite !app_nil_r].
    destruct (float_mul_int (Product.price product) (SaleIn.quantity body)).
    + eexists [], _. cbn [snd Store.add_sale db Store.products Store.sales].
      split; [now rewrite app_nil_r | reflexivity].
    + exists [], []. cbn [snd]. now rewrite !app_nil_r.
  - exists [], []. cbn [snd]. now rewrite !app_nil_r.
  - exists [], []. cbn [snd]. now rewrite !app_nil_r.
Qed.

(* ================================================================== *)
(** ** The daily aggregator *)

Lemma sum_int_total_of (xs : list Z) : sum_int xs = total_of xs.
Proof.
  unfold sum_int, total_of.
  assert (H : forall a, fold_left Z.add xs a = a + fold_right Z.add 0 xs).
  { induction xs as [|x xs IH]; intros a; simpl; [lia|]. rewrite IH. lia. }
  apply H.
Qed.


(** The query of [daily_report] for day [d] selects the sales of day [d]. *)
Lemma daily_query_sales_on_day (d : date) (app : App) :
  daily_query (combine d time_min) (combine d time_max) app = sales_on_day d app.
Proof.
  unfold daily_query, sales_on_day.
  apply filter_ext. intros s.
  pose proof (within_day_iff d (Sale.created_at s)) as H.
  destruct (date_of (Sale.created_at s) =? d) eqn:E.
  - apply Z.eqb_eq in E. apply H in E.
    apply andb_true_iff. split; apply Z.leb_le; lia.
  - apply Z.eqb_neq in E.
    apply not_true_is_false. intros C.
    apply andb_true_iff in C. destruct C as [C1 C2].
    apply Z.leb_le in C1, C2. apply E, H. lia.
Qed.


(** The boundary scenario, day by day. *)
Example daily_report_boundary :
  daily_report (Some 20000) noon app_boundary = DailyReport.mk 20000 4.5%float 3
  /\ daily_report (Some 20001) noon app_boundary = DailyReport.mk 20001 6%float 4
  /\ daily_report (Some 19999) noon app_boundary = DailyReport.mk 19999 0%float 0.
Proof. vm_compute. repeat split. Qed.

(* ================================================================== *)
(** ** Two readings of one clock *)


Lemma create_sale_created_at
  (payload : SaleIn.t) (clk : clock) (app : App) (s : Sale.t) (app' : App) :
  create_sale payload clk app = (Ok s, app') ->
  Sale.created_at s = utcnow clk /\ In s (Store.sales (db app')).
Proof.
  unfold create_sale.
  destruct (Store.get_product (SaleIn.product_id payload) (db app)) as [product|];
    [|discriminate].
  destruct (float_mul_int (Product.price product) (SaleIn.quantity payload));
    [|discriminate].
  simpl. intros [= <- <-]. split; [reflexivity|].
  simpl. apply in_or_app. right. now left.
Qed.



(** The converse: when the two dates agree, the sale is among the rows. *)
Lemma report_without_day_includes
  (payload : SaleIn.t) (clk : clock) (app : App) (s : Sale.t) (app' : App) :
  create_sale payload clk app = (Ok s, app') ->
  date_of (utcnow clk) = today clk ->
  In s (daily_query (combine (today clk) time_min) (combine (today clk) time_max) app').
Proof.
  intros E Hday.
  destruct (create_sale_created_at payload clk app s app' E) as [Hat Hin].
  rewrite daily_query_sales_on_day. unfold sales_on_day.
  apply filter_In. split; [exact Hin|].
  apply Z.eqb_eq. now rewrite Hat.
Qed.

(** Four apples sold in the late evening are in the store, and the report
    without a day, asked for at the same instant, does not count them. *)
Example late_evening_sale_not_reported :
  let '(r, app') := create_sale (SaleIn.mk 1 4) late_evening app_apple in
  r = Ok (Sale.mk 1 1 4 6%float (utcnow late_evening))
  /\ date_of (utcnow late_evening) = 20000
  /\ today late_evening = 20001
  /\ daily_report None late_evening app' = DailyReport.mk 20001 0%float 0.
Proof. vm_compute. repeat split. Qed.

(* ================================================================== *)
(** ** What a request writes *)

(** X1.  Whatever the request, the body and the clock: the answer is a
    created product, and then that product is the one row appended to the
    products and nothing else changed; or it is a created sale, and then
    that sale is the one row appended to the sales and the sale counter is
    one up; or the application is exactly as it was.  So a request that is
    refused (validation, 400, 404, overflow) and a GET write nothing. *)
Theorem request_writes_at_most_one_row (req : request) (clk : clock) (app : App) :
  match fst (handle req clk app) with
  | ProductResponse (Ok p) =>
      snd (handle req clk app)
      = mk_App (Store.mk (Store.products (db app) ++ [p]) (Store.sales (db app)))
               (SALE_COUNT app)
  | SaleResponse (Ok s) =>
      snd (handle req clk app)
      = mk_App (Store.mk (Store.products (db app)) (Store.sales (db app) ++ [s]))
               (SALE_COUNT app + 1)
  | _ => snd (handle req clk app) = app
  end.
Proof.
  destruct req as [body | | body | | d]; cbn [handle]; try reflexivity.
  - destruct (ProductIn.valid body); [|reflexivity].
    unfold create_product.
    destruct (Store.first_product_named (ProductIn.name body) (db app));
      reflexivity.
  - destruct (SaleIn.valid body); [|reflexivity].
    unfold create_sale.
    destruct (Store.get_product (SaleIn.product_id body) (db app)) as [product|];
      [|reflexivity].
    destruct (float_mul_int (Product.price product) (SaleIn.quantity body));
      reflexivity.
Qed.

(** Both tables after a run of requests start with the tables of before. *)
Lemma run_extends (reqs : list (request * clock)) : forall app : App,
  exists ps ss,
    Store.products (db (run reqs app)) = Store.products (db app) ++ ps
    /\ Store.sales (db (run reqs app)) = Store.sales (db app) ++ ss.
Proof.
  induction reqs as [|[req clk] reqs IH]; intros app; cbn [run].
  - exists [], []. now rewrite !app_nil_r.
  - destruct (IH (snd (handle req clk app))) as (ps2 & ss2 & Ep2 & Es2).
    destruct (handle_keeps_rows req clk app) as (ps1 & ss1 & Ep1 & Es1).
    exists (ps1 ++ ps2), (ss1 ++ ss2).
    rewrite Ep2, Es2, Ep1, Es1, !app_assoc. split; reflexivity.
Qed.

(** X2.  No run of requests changes or removes a row: a product that is
    the [i]-th row of its table, and a sale that is the [i]-th row of its
    table, are still that after any requests, with every field as it
    was. *)
Theorem rows_are_never_changed
  (reqs : list (request * clock)) (app : App) (i : nat) :
  (forall p, nth_error (Store.products (db app)) i = Some p ->
             nth_error (Store.products (db (run reqs app))) i = Some p)
  /\ (forall s, nth_error (Store.sales (db app)) i = Some s ->
                nth_error (Store.sales (db (run reqs app))) i = Some s).
Proof.
  destruct (run_extends reqs app) as (ps & ss & Ep & Es).
  rewrite Ep, Es. split.
  - intros p Hp. rewrite nth_error_app1; [exact Hp|].
    apply nth_error_Some. congruence.
  - intros s Hs. rewrite nth_error_app1; [exact Hs|].
    apply nth_error_Some. congruence.
Qed.

(** The states reached are the runs from the empty database. *)
Lemma run_reachable (reqs : list (request * clock)) : forall app : App,
  reachable app -> reachable (run reqs app).
Proof.
  induction reqs as [|[req clk] reqs IH]; intros app H; cbn [run].
  - exact H.
  - apply IH. now apply reachable_step.
Qed.

(* ================================================================== *)
(** ** What the handlers keep true *)

Lemma ProductIn_valid_elim (body : ProductIn.t) :
  ProductIn.valid body = true ->
  ProductIn.name body <> EmptyString
  /\ PrimFloat.ltb PrimFloat.zero (ProductIn.price body) = true.
Proof.
  unfold ProductIn.valid. intros H.
  apply andb_true_iff in H. destruct H as [Hlen Hprice].
  split; [|exact Hprice].
  intros Hempty. rewrite Hempty in Hlen. discriminate Hlen.
Qed.

Lemma handle_rows_valid (req : request) (clk : clock) (app : App) :
  Forall product_row_valid (Store.products (db app)) ->
  Forall sale_row_valid (Store.sales (db app)) ->
  Forall product_row_valid (Store.products (db (snd (handle req clk app))))
  /\ Forall sale_row_valid (Store.sales (db (snd (handle req clk app)))).
Proof.
  intros Hp Hs.
  destruct req as [body | | body | | d]; cbn [handle snd]; auto.
  - destruct (ProductIn.valid body) eqn:Hvalid; [|auto].
    apply ProductIn_valid_elim in Hvalid.
    unfold create_product.
    destruct (Store.first_product_named (ProductIn.name body) (db app)); [auto|].
    cbn. split; [|exact Hs].
    apply Forall_app. split; [exact Hp|]. now repeat constructor.
  - destruct (SaleIn.valid body) eqn:Hvalid; [|auto].
    unfold SaleIn.valid in Hvalid. apply Z.ltb_lt in Hvalid.
    unfold create_sale.
    destruct (Store.get_product (SaleIn.product_id body) (db app)) as [product|];
      [|auto].
    destruct (float_mul_int (Product.price product) (SaleIn.quantity body));
      [|auto].
    cbn. split; [exact Hp|].
    apply Forall_app. split; [exact Hs|]. now repeat constructor.
Qed.

Lemma reachable_rows_valid (app : App) :
  reachable app ->
  Forall product_row_valid (Store.products (db app))
  /\ Forall sale_row_valid (Store.sales (db app)).
Proof.
  induction 1 as [|app req clk _ [IHp IHs]].
  - split; constructor.
  - now apply handle_rows_valid.
Qed.

(** X3.  Every product of a reachable store has a name that is not empty
    and a price above zero (so no NaN and no zero price): a body that fails
    the [Field] constraints of [ProductIn] never reaches the table. *)
Theorem stored_products_are_valid (app : App) (p : Product.t) :
  reachable app ->
  In p (Store.products (db app)) ->
  Product.name p <> EmptyString
  /\ PrimFloat.ltb PrimFloat.zero (Product.price p) = true.
Proof.
  intros Hreach Hin.
  destruct (reachable_rows_valid app Hreach) as [Hp _].
  rewrite Forall_forall in Hp. exact (Hp p Hin).
Qed.

Lemma stored_products_are_valid_witness :
  Product.name apple <> EmptyString
  /\ PrimFloat.ltb PrimFloat.zero (Product.price apple) = true.
Proof.
  apply (stored_products_are_valid app_sold apple).
  - exact app_sold_reachable.
  - vm_compute. left. reflexivity.
Defined.

(** X4.  Every sale of a reachable store has a quantity above zero. *)
Theorem stored_sales_are_positive (app : App) (s : Sale.t) :
  reachable app ->
  In s (Store.sales (db app)) ->
  0 < Sale.quantity s.
Proof.
  intros Hreach Hin.
  destruct (reachable_rows_valid app Hreach) as [_ Hs].
  rewrite Forall_forall in Hs. exact (Hs s Hin).
Qed.

Lemma stored_sales_are_positive_witness : 0 < Sale.quantity apple_sale.
Proof.
  apply (stored_sales_are_positive app_sold apple_sale).
  - exact app_sold_reachable.
  - vm_compute. left. reflexivity.
Defined.

(** X5.  In a reachable store a name identifies a product: two products
    of the store with the same name are the same row. *)
Theorem product_name_identifies (app : App) (p p' : Product.t) :
  reachable app ->
  In p (Store.products (db app)) ->
  In p' (Store.products (db app)) ->
  Product.name p = Product.name p' ->
  p = p'.
Proof.
  intros Hreach Hp Hp' Hname.
  apply reachable_consistent in Hreach.
  destruct Hreach as [_ _ Hnames _ _].
  exact (NoDup_map_inj Product.name _ p p' Hnames Hp Hp' Hname).
Qed.

Lemma app_pear_reachable : reachable app_pear.
Proof.
  unfold app_pear, app_apple.
  do 2 apply reachable_step. apply reachable_init.
Qed.

Lemma product_name_identifies_witness :
  nth 1 (Store.products (db app_pear)) apple = pear.
Proof.
  apply (product_name_identifies app_pear).
  - exact app_pear_reachable.
  - vm_compute. right. left. reflexivity.
  - vm_compute. right. left. reflexivity.
  - vm_compute. reflexivity.
Defined.

Lemma handle_sale_count (req : request) (clk : clock) (app : App) :
  SALE_COUNT app = Z.of_nat (List.length (Store.sales (db app))) ->
  SALE_COUNT (snd (handle req clk app))
  = Z.of_nat (List.length (Store.sales (db (snd (handle req clk app))))).
Proof.
  intros H.
  destruct req as [body | | body | | d]; cbn [handle snd]; try exact H.
  - destruct (ProductIn.valid body); [|exact H].
    unfold create_product.
    destruct (Store.first_product_named (ProductIn.name body) (db app));
      exact H.
  - destruct (SaleIn.valid body); [|exact H].
    unfold create_sale.
    destruct (Store.get_product (SaleIn.product_id body) (db app)) as [product|];
      [|exact H].
    destruct (float_mul_int (Product.price product) (SaleIn.quantity body));
      [|exact H].
    cbn [snd Store.add_sale SALE_COUNT db Store.sales].
    rewrite length_app. cbn [List.length]. lia.
Qed.

(** X6.  In every state reached from the empty database and the counter
    at zero, the sale counter is the number of rows of the ledger: it is
    incremented when a sale has been written, and only then. *)
Theorem sale_count_is_ledger_size (app : App) :
  reachable app ->
  SALE_COUNT app = Z.of_nat (List.length (Store.sales (db app))).
Proof.
  induction 1 as [|app req clk _ IH].
  - reflexivity.
  - now apply handle_sale_count.
Qed.

Lemma sale_count_is_ledger_size_witness :
  SALE_COUNT app_sold = Z.of_nat (List.length (Store.sales (db app_sold))).
Proof.
  apply (sale_count_is_ledger_size app_sold).
  exact app_sold_reachable.
Defined.

(* ================================================================== *)
(** ** One request after another *)

Lemma find_app_none {A : Type} (f : A -> bool) (l l' : list A) :
  find f l = None -> find f (l ++ l') = find f l'.
Proof.
  induction l as [|a l IH]; cbn [find app]; [reflexivity|].
  destruct (f a); [discriminate | exact IH].
Qed.

(** X7.  Creating a product is idempotent on the store: whatever the first
    [create_product] did with a body (it wrote the row, or it found the
    name taken), the same body again is answered with the 400 "Product
    already exists" and nothing is written. *)
Theorem create_product_twice (body : ProductIn.t) (clk1 clk2 : clock) (app : App) :
  create_product body clk2 (snd (create_product body clk1 app))
  = (Raise (HTTPException 400 "Product already exists"),
     snd (create_product body clk1 app)).
Proof.
  unfold create_product at 2 3.
  destruct (Store.first_product_named (ProductIn.name body) (db app)) eqn:E.
  - cbn [snd]. unfold create_product. now rewrite E.
  - cbn [snd Store.add_product].
    unfold create_product, Store.first_product_named in *.
    cbn [db Store.products].
    rewrite (find_app_none _ _ _ E). cbn [find Product.name].
    now rewrite String.eqb_refl.
Qed.



(** X9.  For a product of the store and a quantity from [2^1024 - 2^970]
    on, [create_sale] leaves with the overflow of [price * quantity], which
    is the answer of [POST /sales], and nothing is written: no sale, no
    count. *)
Theorem create_sale_refuses_huge_quantity
  (payload : SaleIn.t) (clk : clock) (app : App) (p : Product.t) :
  NoDup (map Product.id (Store.products (db app))) ->
  In p (Store.products (db app)) ->
  Product.id p = SaleIn.product_id payload ->
  2 ^ 1024 - 2 ^ 970 <= SaleIn.quantity payload ->
  create_sale payload clk app
  = (Raise (OverflowError "int too large to convert to float"), app)
  /\ handle (POST_sales payload) clk app
     = (SaleResponse (Raise (OverflowError "int too large to convert to float")),
        app).
Proof.
  intros Hpk Hin Hid Hbig.
  pose proof (get_product_In (db app) p Hpk Hin) as Hget.
  rewrite Hid in Hget.
  assert (E : create_sale payload clk app
              = (Raise (OverflowError "int too large to convert to float"), app)).
  { unfold create_sale, float_mul_int.
    now rewrite Hget, (float_of_int_overflow _ Hbig). }
  split; [exact E|].
  cbn [handle]. unfold SaleIn.valid.
  assert (Hpos : 0 < SaleIn.quantity payload).
  { assert (0 < 2 ^ 1024 - 2 ^ 970) by (vm_compute; reflexivity). lia. }
  apply Z.ltb_lt in Hpos. now rewrite Hpos, E.
Qed.

Lemma create_sale_refuses_huge_quantity_witness :
  create_sale (SaleIn.mk 1 huge_quantity) noon app_apple
  = (Raise (OverflowError "int too large to convert to float"), app_apple)
  /\ handle (POST_sales (SaleIn.mk 1 huge_quantity)) noon app_apple
     = (SaleResponse (Raise (OverflowError "int too large to convert to float")),
        app_apple).
Proof.
  apply (create_sale_refuses_huge_quantity (SaleIn.mk 1 huge_quantity) noon
                                           app_apple apple).
  - vm_compute. repeat constructor. intros [].
  - vm_compute. left. reflexivity.
  - reflexivity.
  - vm_compute. discriminate.
Defined.

(** *** Where a new row comes in a listing *)

Section OrderBySnoc.
Context {A : Type}.
Variable key : A -> Z.

Lemma insert_by_snoc (b a : A) (m : list A) :
  key b <= key a -> insert_by key b (m ++ [a]) = insert_by key b m ++ [a].
Proof.
  intros Hba. induction m as [|c m IH]; cbn [insert_by app].
  - apply Z.leb_le in Hba. now rewrite Hba.
  - destruct (key b <=? key c); [reflexivity|]. now rewrite IH.
Qed.

(** A row whose key is the largest comes last ... *)
Lemma order_by_snoc_max (a : A) (l : list A) :
  (forall x, In x l -> key x <= key a) ->
  order_by key (l ++ [a]) = order_by key l ++ [a].
Proof.
  induction l as [|b l IH]; intros Hmax; cbn [order_by app]; [reflexivity|].
  rewrite IH by (intros x Hx; apply Hmax; now right).
  apply insert_by_snoc. apply Hmax. now left.
Qed.

(** ... and a row whose key is below all the others comes first. *)
Lemma order_by_snoc_min (a : A) (l : list A) :
  (forall x, In x l -> key a < key x) ->
  order_by key (l ++ [a]) = a :: order_by key l.
Proof.
  induction l as [|b l IH]; intros Hmin; cbn [order_by app]; [reflexivity|].
  rewrite IH by (intros x Hx; apply Hmin; now right).
  cbn [insert_by].
  assert (Hab : key a < key b) by (apply Hmin; now left).
  apply Z.leb_gt in Hab. now rewrite Hab.
Qed.

End OrderBySnoc.

(** X10.  A product that was just created is the last of [list_products],
    after the products listed before, in the order they had. *)
Theorem new_product_is_listed_last
  (body : ProductIn.t) (clk : clock) (app app' : App) (p : Product.t) :
  create_product body clk app = (Ok p, app') ->
  list_products app' = list_products app ++ [p].
Proof.
  unfold create_product.
  destruct (Store.first_product_named (ProductIn.name body) (db app));
    [discriminate|].
  cbn [Store.add_product]. intros [= <- <-].
  unfold list_products. cbn [db Store.products].
  apply order_by_snoc_max. intros x Hx. cbn [Product.id].
  apply Z.lt_le_incl, next_id_above. now apply in_map.
Qed.

Lemma new_product_is_listed_last_witness :
  list_products app_pear = list_products app_apple ++ [pear].
Proof.
  apply (new_product_is_listed_last pear_in noon app_apple app_pear pear).
  vm_compute. reflexivity.
Defined.

(** X11.  A sale created at a later [created_at] than every sale of the
    ledger is the first of [list_sales], before the sales listed before,
    in the order they had. *)
Theorem newest_sale_is_listed_first
  (payload : SaleIn.t) (clk : clock) (app app' : App) (s : Sale.t) :
  create_sale payload clk app = (Ok s, app') ->
  (forall s0, In s0 (Store.sales (db app)) -> Sale.created_at s0 < utcnow clk) ->
  list_sales app' = s :: list_sales app.
Proof.
  unfold create_sale.
  destruct (Store.get_product (SaleIn.product_id payload) (db app)) as [product|];
    [|discriminate].
  destruct (float_mul_int (Product.price product) (SaleIn.quantity payload));
    [|discriminate].
  cbn [Store.add_sale]. intros [= <- <-] Hlater.
  unfold list_sales. cbn [db Store.sales].
  apply order_by_snoc_min. intros x Hx. unfold desc. cbn [Sale.created_at].
  specialize (Hlater x Hx). lia.
Qed.

Lemma newest_sale_is_listed_first_witness :
  list_sales (snd (create_sale (SaleIn.mk 1 2) afternoon app_sold))
  = afternoon_sale :: list_sales app_sold.
Proof.
  apply (newest_sale_is_listed_first (SaleIn.mk 1 2) afternoon app_sold).
  - vm_compute. reflexivity.
  - intros s0 Hs0. vm_compute in Hs0. destruct Hs0 as [<- | []].
    vm_compute. reflexivity.
Defined.

(* ================================================================== *)
(** ** A sale and the reports *)





Lemma total_of_bounds (xs : list Z) (x : Z) :
  Forall (fun y => 0 < y) xs -> In x xs -> x <= total_of xs.
Proof.
  unfold total_of.
  induction 1 as [|y xs Hy Hxs IH]; cbn [In fold_right]; [contradiction|].
  assert (Hnonneg : 0 <= fold_right Z.add 0 xs).
  { clear IH. induction Hxs as [|z zs Hz _ IHz]; cbn [fold_right]; lia. }
  intros [-> | Hin]; [lia|]. specialize (IH Hin). lia.
Qed.

(** X13.  In a reachable store, the items of a day's report are at least
    the quantity of each sale of that day; so they are above zero as soon
    as the day has a sale. *)
Theorem report_items_cover_each_sale
  (app : App) (d : date) (clk : clock) (s : Sale.t) :
  reachable app ->
  In s (Store.sales (db app)) ->
  date_of (Sale.created_at s) = d ->
  Sale.quantity s <= DailyReport.total_items (daily_report (Some d) clk app)
  /\ 0 < DailyReport.total_items (daily_report (Some d) clk app).
Proof.
  intros Hreach Hin Hday.
  destruct (reachable_rows_valid app Hreach) as [_ Hvalid].
  rewrite Forall_forall in Hvalid.
  unfold daily_report. cbn [DailyReport.total_items].
  rewrite daily_query_sales_on_day, sum_int_total_of.
  assert (Hs : In s (sales_on_day d app)).
  { unfold sales_on_day. apply filter_In. split; [exact Hin|].
    now apply Z.eqb_eq. }
  assert (Hle : Sale.quantity s
                <= total_of (map Sale.quantity (sales_on_day d app))).
  { apply total_of_bounds; [|now apply in_map].
    apply Forall_forall. intros y Hy.
    apply in_map_iff in Hy. destruct Hy as (s' & <- & Hs').
    apply Hvalid. unfold sales_on_day in Hs'. apply filter_In in Hs'. tauto. }
  split; [exact Hle|].
  specialize (Hvalid s Hin). unfold sale_row_valid in Hvalid. lia.
Qed.

Lemma report_items_cover_each_sale_witness :
  Sale.quantity apple_sale
  <= DailyReport.total_items (daily_report (Some 20000) afternoon app_sold)
  /\ 0 < DailyReport.total_items (daily_report (Some 20000) afternoon app_sold).
Proof.
  apply (report_items_cover_each_sale app_sold 20000 afternoon apple_sale).
  - exact app_sold_reachable.
  - vm_compute. left. reflexivity.
  - vm_compute. reflexivity.
Defined.

(* ================================================================== *)
(** ** The two sides of the relationship *)

(** X14.  [Product.sales] and [Sale.product] are the two sides of one
    relationship: under the primary key of products, a sale of the ledger
    is among the sales of a product [p] of the store exactly when its
    product is [p]. *)
Theorem relationship_round_trip (db0 : Store.t) (p : Product.t) (s : Sale.t) :
  NoDup (map Product.id (Store.products db0)) ->
  In p (Store.products db0) ->
  In s (Store.sales db0) ->
  (In s (sales_of_product p db0) <-> product_of_sale s db0 = Some p).
Proof.
  intros Hpk Hp Hs.
  unfold sales_of_product, product_of_sale. rewrite filter_In. split.
  - intros [_ Hfk]. apply Z.eqb_eq in Hfk. rewrite Hfk.
    now apply get_product_In.
  - intros Hget. split; [exact Hs|].
    apply find_some in Hget. destruct Hget as [_ Hid].
    apply Z.eqb_eq in Hid. apply Z.eqb_eq. now symmetry.
Qed.

Lemma relationship_round_trip_witness :
  In apple_sale (sales_of_product apple (db app_sold))
  <-> product_of_sale apple_sale (db app_sold) = Some apple.
Proof.
  apply (relationship_round_trip (db app_sold) apple apple_sale).
  - vm_compute. repeat constructor. intros [].
  - vm_compute. left. reflexivity.
  - vm_compute. left. reflexivity.
Defined.

(** X15.  In a reachable store the relationship never dangles: every sale
    has a product, that product is a row of the store, and the sale is
    among that product's sales. *)
Theorem sale_product_resolves (app : App) (s : Sale.t) :
  reachable app ->
  In s (Store.sales (db app)) ->
  exists p, product_of_sale s (db app) = Some p
            /\ In p (Store.products (db app))
            /\ In s (sales_of_product p (db app)).
Proof.
  intros Hreach Hs.
  destruct (reachable_consistent app Hreach) as [Hids _ _ _ Hback].
  rewrite Forall_forall in Hback.
  destruct (Hback s Hs) as (p & Hp & Hid & _).
  exists p. split; [|split].
  - unfold product_of_sale. rewrite <- Hid. now apply get_product_In.
  - exact Hp.
  - unfold sales_of_product. apply filter_In. split; [exact Hs|].
    apply Z.eqb_eq. now symmetry.
Qed.

Lemma sale_product_resolves_witness :
  exists p, product_of_sale apple_sale (db app_sold) = Some p
            /\ In p (Store.products (db app_sold))
            /\ In apple_sale (sales_of_product p (db app_sold)).
Proof.
  apply (sale_product_resolves app_sold apple_sale).
  - exact app_sold_reachable.
  - vm_compute. left. reflexivity.
Defined.

Lemma list_sum_cons (n : nat) (l : list nat) :
  list_sum (n :: l) = (n + list_sum l)%nat.
Proof. reflexivity. Qed.

Lemma list_sum_map_zero {A : Type} (l : list A) :
  list_sum (map (fun _ => 0%nat) l) = 0%nat.
Proof.
  induction l as [|a l IH]; cbn [map]; [reflexivity|].
  now rewrite list_sum_cons, IH.
Qed.

Lemma list_sum_map_add {A : Type} (f g : A -> nat) (l : list A) :
  list_sum (map (fun a => (f a + g a)%nat) l)
  = (list_sum (map f l) + list_sum (map g l))%nat.
Proof.
  induction l as [|a l IH]; cbn [map]; [reflexivity|].
  rewrite !list_sum_cons, IH. lia.
Qed.

(** Under the primary key, exactly one product answers to a key in use. *)
Lemma one_product_per_key (ps : list Product.t) (p : Product.t) :
  NoDup (map Product.id ps) ->
  In p ps ->
  list_sum (map (fun p' => if Product.id p =? Product.id p' then 1%nat else 0%nat) ps)
  = 1%nat.
Proof.
  induction ps as [|a ps IH]; cbn [map In]; intros Hnd Hin;
    [contradiction|].
  rewrite list_sum_cons.
  inversion Hnd as [|? ? Hnotin Hnd']; subst.
  destruct Hin as [-> | Hin].
  - rewrite Z.eqb_refl.
    assert (E : map (fun p' => if Product.id p =? Product.id p' then 1%nat else 0%nat) ps
                = map (fun _ => 0%nat) ps).
    { apply map_ext_in. intros x Hx.
      destruct (Product.id p =? Product.id x) eqn:Ex; [|reflexivity].
      apply Z.eqb_eq in Ex. exfalso. apply Hnotin. rewrite Ex. now apply in_map. }
    now rewrite E, list_sum_map_zero.
  - destruct (Product.id p =? Product.id a) eqn:Ea.
    + apply Z.eqb_eq in Ea. exfalso. apply Hnotin. rewrite <- Ea. now apply in_map.
    + now rewrite IH.
Qed.

(** X16.  In a reachable store the products' sales partition the ledger:
    the sizes of [Product.sales] over the products of the store add up to
    the number of sales, so every sale is counted under exactly one
    product. *)
Theorem product_sales_partition_ledger (app : App) :
  reachable app ->
  list_sum (map (fun p => List.length (sales_of_product p (db app)))
                (Store.products (db app)))
  = List.length (Store.sales (db app)).
Proof.
  intros Hreach.
  destruct (reachable_consistent app Hreach) as [Hids _ _ _ Hback].
  unfold sales_of_product.
  induction (Store.sales (db app)) as [|s ss IH].
  - cbn [filter List.length]. apply list_sum_map_zero.
  - inversion Hback as [|? ? (p & Hp & Hid & _) Hback']; subst.
    cbn [List.length]. rewrite <- (IH Hback').
    transitivity
      (list_sum
         (map (fun p' =>
                 ((if (Product.id p =? Product.id p')%Z then 1 else 0)
                  + List.length
                      (filter (fun s' => (Sale.product_id s' =? Product.id p')%Z)
                              ss))%nat)
              (Store.products (db app)))).
    + f_equal. apply map_ext. intros p'. cbn [filter].
      rewrite <- Hid.
      destruct (Product.id p =? Product.id p'); reflexivity.
    + rewrite list_sum_map_add, (one_product_per_key _ p Hids Hp).
      reflexivity.
Qed.

Lemma product_sales_partition_ledger_witness :
  list_sum (map (fun p => List.length (sales_of_product p (db app_sold)))
                (Store.products (db app_sold)))
  = List.length (Store.sales (db app_sold)).
Proof.
  apply (product_sales_partition_ledger app_sold).
  exact app_sold_reachable.
Defined.

(* ================================================================== *)
(** ** What an error tells *)

(** X17.  The only way [create_product] fails is the name conflict: when
    it raises, what it raises is the 400 "Product already exists", a
    product of the store carries the name of the body, and nothing was
    written. *)
Theorem create_product_error_means
  (payload : ProductIn.t) (clk : clock) (app app' : App) (e : exn) :
  create_product payload clk app = (Raise e, app') ->
  e = HTTPException 400 "Product already exists"
  /\ app' = app
  /\ exists p, In p (Store.products (db app))
               /\ Product.name p = ProductIn.name payload.
Proof.
  unfold create_product, Store.first_product_named.
  destruct (find (fun p => String.eqb (Product.name p) (ProductIn.name payload))
                 (Store.products (db app))) as [p|] eqn:E;
    [|discriminate].
  intros [= <- <-].
  apply find_some in E. destruct E as [Hin Hname].
  apply String.eqb_eq in Hname.
  split; [reflexivity|]. split; [reflexivity|]. now exists p.
Qed.

Lemma create_product_error_means_witness :
  HTTPException 400 "Product already exists"
  = HTTPException 400 "Product already exists"
  /\ app_apple = app_apple
  /\ exists p, In p (Store.products (db app_apple))
               /\ Product.name p = ProductIn.name apple_in.
Proof.
  apply (create_product_error_means apple_in afternoon app_apple app_apple).
  vm_compute. reflexivity.
Defined.



(* ================================================================== *)
(** ** The scenario of the tests, for every store *)

(** X19.  What [test_create_sale_and_report] asserts of the items, for
    every reachable store: after [POST /sales] has created a sale, the
    report without a day, asked for at the same clock reading, counts at
    least the quantity of the request, provided the UTC date of the reading
    is its local date. *)
Theorem sale_is_reported_today
  (payload : SaleIn.t) (clk : clock) (app app' : App) (s : Sale.t) :
  reachable app ->
  handle (POST_sales payload) clk app = (SaleResponse (Ok s), app') ->
  date_of (utcnow clk) = today clk ->
  SaleIn.quantity payload
  <= DailyReport.total_items (daily_report None clk app').
Proof.
  intros Hreach Hhandle Hday.
  assert (Hreach' : reachable app').
  { replace app' with (snd (handle (POST_sales payload) clk app))
      by now rewrite Hhandle.
    now apply reachable_step. }
  destruct (reachable_rows_valid app' Hreach') as [_ Hvalid].
  cbn [handle] in Hhandle.
  destruct (SaleIn.valid payload); [|discriminate].
  destruct (create_sale payload clk app) as [r app1] eqn:E.
  injection Hhandle as -> ->.
  destruct (create_sale_created_at payload clk app s app' E) as [Hat Hin].
  assert (Hqty : Sale.quantity s = SaleIn.quantity payload).
  { unfold create_sale in E.
    destruct (Store.get_product (SaleIn.product_id payload) (db app))
      as [product|]; [|discriminate].
    destruct (float_mul_int (Product.price product) (SaleIn.quantity payload));
      [|discriminate].
    cbn [Store.add_sale] in E. injection E as <- _. reflexivity. }
  unfold daily_report. cbn [DailyReport.total_items].
  rewrite daily_query_sales_on_day, sum_int_total_of, <- Hqty.
  apply total_of_bounds.
  - apply Forall_forall. intros y Hy.
    apply in_map_iff in Hy. destruct Hy as (s' & <- & Hs').
    rewrite Forall_forall in Hvalid. apply Hvalid.
    unfold sales_on_day in Hs'. apply filter_In in Hs'. tauto.
  - apply in_map. unfold sales_on_day. apply filter_In.
    split; [exact Hin|]. apply Z.eqb_eq. now rewrite Hat.
Qed.

Lemma sale_is_reported_today_witness :
  SaleIn.quantity (SaleIn.mk 1 4)
  <= DailyReport.total_items (daily_report None noon app_sold).
Proof.
  apply (sale_is_reported_today (SaleIn.mk 1 4) noon app_apple app_sold apple_sale).
  - unfold app_apple. apply reachable_step, reachable_init.
  - vm_compute. reflexivity.
  - vm_compute. reflexivity.
Defined.
